(** * Icon generator (generate-icons.py): a shallow embedding and its properties

    The script is straight-line Python around four library calls
    ([os.path.exists], [os.makedirs], [Image.open], [Image.resize] /
    [Image.save]) and [print].  It is embedded as a computation in a small
    state-and-exception monad over a file system and a trace of the calls
    made, with the outcome of every call recorded.  What the operating system
    or the imaging library may refuse for reasons outside the file system
    (permissions, memory, a damaged data stream, a full disk) is supplied by
    an environment of faults; every theorem quantifies over it. *)

From stdpp Require Import gmap strings list fin_maps pretty.
From Stdlib Require Import ZArith Ascii.

Local Open Scope Z_scope.

(** ** Python values and exceptions *)

Module Py.

(** An instance of [Exception]: its class name and what [str(e)] gives. *)
Record exn := Exn { exn_class : string; exn_str : string }.

(** The values a caller can receive from a function of this script. *)
Inductive value :=
| VNone
| VBool (b : bool)
| VInt (n : Z)
| VStr (s : string).

(** How a call ends: with a value, or with an exception on its way to the
    caller. *)
Inductive res (A : Type) :=
| Val (a : A)
| Exc (e : exn).
Arguments Val {A} a.
Arguments Exc {A} e.

Definition raises {A} (r : res A) : bool :=
  match r with Val _ => false | Exc _ => true end.

End Py.
Export Py.

(** ** Images and the file system *)

(** [PIL.Image.Resampling] *)
Inductive Resampling := NEAREST | BOX | BILINEAR | HAMMING | BICUBIC | LANCZOS.

(** An image held in memory.  The pixel data is kept symbolic: either the
    raster stored in some file, or the result of resampling another image. *)
Inductive image :=
| Bitmap (w h : Z) (tag : string)
| Resized (src : image) (w h : Z) (flt : Resampling).

(** [img.size] *)
Definition size (im : image) : Z * Z :=
  match im with
  | Bitmap w h _ => (w, h)
  | Resized _ w h _ => (w, h)
  end.

(** What a regular file holds: an image in some encoding, or bytes that are
    not an image. *)
Inductive content :=
| Encoded (fmt : string) (im : image)
| Opaque (bytes : string).

Inductive node :=
| Dir
| File (c : content).

(** One call of the script into the outside world, with its outcome. *)
Inductive event :=
| EvExists (p : string) (b : bool)
| EvMakedirs (p : string) (r : option exn)
| EvOpen (p : string) (r : res image)
| EvResize (src : image) (sz : Z * Z) (flt : Resampling) (r : option exn)
| EvSave (im : image) (p : string) (fmt : string) (r : option exn)
| EvPrint (line : string).

Record state := State { fs : gmap string node; trace : list event }.

(** What the environment refuses independently of the file system.  A failed
    save may leave damaged bytes at its target ([Some c]) or leave the file
    system as it was ([None]). *)
Record faults := Faults {
  mkdir_fault : string → option exn;
  open_fault : string → option exn;
  resize_fault : image → Z * Z → Resampling → option exn;
  save_fault : image → string → option (exn * option content)
}.

Definition no_faults : faults :=
  {| mkdir_fault := λ _, None;
     open_fault := λ _, None;
     resize_fault := λ _ _ _, None;
     save_fault := λ _ _, None |}.

(** ** The monad: state that survives an exception *)

Definition M (A : Type) : Type := state → res A * state.

Definition ret {A} (a : A) : M A := λ s, (Val a, s).
Definition raise {A} (e : exn) : M A := λ s, (Exc e, s).
Definition bind {A B} (m : M A) (k : A → M B) : M B :=
  λ s, match m s with
       | (Val a, s') => k a s'
       | (Exc e, s') => (Exc e, s')
       end.

(** [try: body except Exception as e: handler] *)
Definition try_except {A} (body : M A) (handler : exn → M A) : M A :=
  λ s, match body s with
       | (Val a, s') => (Val a, s')
       | (Exc e, s') => handler e s'
       end.

Definition emit (ev : event) : M unit :=
  λ s, (Val tt, {| fs := fs s; trace := trace s ++ [ev] |}).
Definition get_fs : M (gmap string node) := λ s, (Val (fs s), s).
Definition put_fs (m : gmap string node) : M unit :=
  λ s, (Val tt, {| fs := m; trace := trace s |}).

Declare Scope py_scope.
Delimit Scope py_scope with py.
Notation "x <- c1 ;; c2" := (bind c1 (λ x, c2))
  (at level 100, c1 at next level, right associativity) : py_scope.
Notation "c1 ;; c2" := (bind c1 (λ _, c2))
  (at level 100, right associativity) : py_scope.
Local Open Scope py_scope.

(** [for x in xs: body x] *)
Fixpoint for_each {A} (xs : list A) (body : A → M unit) : M unit :=
  match xs with
  | [] => ret tt
  | x :: xs' => body x ;; for_each xs' body
  end.

(** ** Paths and text *)

(** [os.path.dirname] on POSIX paths: what precedes the last slash. *)
Fixpoint dirname_aux (p : string) : option string :=
  match p with
  | EmptyString => None
  | String c p' =>
      match dirname_aux p' with
      | Some d => Some (String c d)
      | None => if Ascii.eqb c "/"%char then Some EmptyString else None
      end
  end.
Definition dirname (p : string) : string := default "" (dirname_aux p).

(** [str(n)] for an [int] *)
Definition str (n : Z) : string := pretty n.

Definition newline : string := String (Ascii.ascii_of_nat 10) EmptyString.

(** [os.path.isdir(p)] as a test on the file system *)
Definition is_dir (m : gmap string node) (p : string) : bool :=
  match m !! p with
  | Some Dir => true
  | _ => false
  end.

(** ** The library calls *)

Section Calls.
Context (env : faults).

(** [os.path.exists(p)] *)
Definition os_path_exists (p : string) : M bool :=
  m <- get_fs ;;
  let b := bool_decide (is_Some (m !! p)) in
  emit (EvExists p b) ;;
  ret b.

(** [os.makedirs(p, exist_ok=...)] for a path of one component, which has
    no parent to create: [mkdir] is attempted, and its failure is forgiven
    only when [exist_ok] holds and the path is a directory. *)
Definition os_makedirs (p : string) (exist_ok : bool) : M unit :=
  m <- get_fs ;;
  match m !! p with
  | Some Dir =>
      if exist_ok then emit (EvMakedirs p None)
      else
        let e := Exn "FileExistsError" ("File exists: " +:+ p) in
        emit (EvMakedirs p (Some e)) ;; raise e
  | Some (File _) =>
      let e := Exn "FileExistsError" ("File exists: " +:+ p) in
      emit (EvMakedirs p (Some e)) ;; raise e
  | None =>
      match mkdir_fault env p with
      | Some e => emit (EvMakedirs p (Some e)) ;; raise e
      | None => put_fs (<[p := Dir]> m) ;; emit (EvMakedirs p None)
      end
  end.

(** [Image.open(p)] *)
Definition Image_open (p : string) : M image :=
  m <- get_fs ;;
  let r :=
    match m !! p with
    | None => Exc (Exn "FileNotFoundError" ("No such file or directory: " +:+ p))
    | Some Dir => Exc (Exn "IsADirectoryError" ("Is a directory: " +:+ p))
    | Some (File c) =>
        match open_fault env p with
        | Some e => Exc e
        | None =>
            match c with
            | Encoded _ im => Val im
            | Opaque _ =>
                Exc (Exn "UnidentifiedImageError" ("cannot identify image file " +:+ p))
            end
        end
    end in
  emit (EvOpen p r) ;;
  match r with Val im => ret im | Exc e => raise e end.

(** [im.resize(sz, flt)]: a new image of exactly the requested size. *)
Definition Image_resize (im : image) (sz : Z * Z) (flt : Resampling) : M image :=
  let r :=
    if bool_decide (0 < sz.1 ∧ 0 < sz.2) then resize_fault env im sz flt
    else Some (Exn "ValueError" "height and width must be > 0") in
  emit (EvResize im sz flt r) ;;
  match r with
  | None => ret (Resized im sz.1 sz.2 flt)
  | Some e => raise e
  end.

(** [im.save(p, fmt)]: the target is created or overwritten. *)
Definition Image_save (im : image) (p : string) (fmt : string) : M unit :=
  m <- get_fs ;;
  if is_dir m p then
    let e := Exn "IsADirectoryError" ("Is a directory: " +:+ p) in
    emit (EvSave im p fmt (Some e)) ;; raise e
  else if bool_decide (dirname p = "") || is_dir m (dirname p) then
    match save_fault env im p with
    | Some (e, residue) =>
        match residue with
        | Some c => put_fs (<[p := File c]> m)
        | None => ret tt
        end ;;
        emit (EvSave im p fmt (Some e)) ;; raise e
    | None =>
        put_fs (<[p := File (Encoded fmt im)]> m) ;;
        emit (EvSave im p fmt None)
    end
  else
    let e := Exn "FileNotFoundError" ("No such file or directory: " +:+ p) in
    emit (EvSave im p fmt (Some e)) ;; raise e.

(** [print(line)] *)
Definition print (line : string) : M unit := emit (EvPrint line).

(** ** The script *)

Definition SIZES : list Z := [72; 96; 128; 144; 152; 192; 384; 512].

Definition source : string := "speech-bubble.png".

(** [f"icons/icon-{size}.png"] *)
Definition output_path (size : Z) : string :=
  "icons/icon-" +:+ str size +:+ ".png".

(** The body of the [for] loop. *)
Definition icon_step (img : image) (size : Z) : M unit :=
  resized <- Image_resize img (size, size) LANCZOS ;;
  Image_save resized (output_path size) "PNG" ;;
  print ("Generated: " +:+ output_path size).

(** The body of the [try] block. *)
Definition try_body : M unit :=
  img <- Image_open source ;;
  print ("Source image: " +:+ str (size img).1 +:+ "x" +:+ str (size img).2) ;;
  for_each SIZES (icon_step img) ;;
  print (newline +:+ "All icons generated successfully!") ;;
  print "Update manifest.json to reference these icons.".

Definition generate_icons : M value :=
  b <- os_path_exists source ;;
  if negb b then
    print ("Error: " +:+ source +:+ " not found") ;;
    ret VNone
  else
    os_makedirs "icons" true ;;
    try_except try_body
      (λ e, print ("Error generating icons: " +:+ exn_str e)) ;;
    ret VNone.

End Calls.

(** A run of the script from a file system, with nothing yet traced. *)
Definition run (env : faults) (m : gmap string node) : res value * state :=
  generate_icons env {| fs := m; trace := [] |}.

(** ** What a trace shows *)

(** The lines written to standard output, in order. *)
Definition printed (tr : list event) : list string :=
  omap (λ ev, match ev with EvPrint line => Some line | _ => None end) tr.

(** The files written: image, path and format of every save that succeeded. *)
Definition saved (tr : list event) : list (image * string * string) :=
  omap (λ ev, match ev with
              | EvSave im p fmt None => Some (im, p, fmt)
              | _ => None
              end) tr.

(** The resampling requests made, whether they succeeded or not. *)
Definition resamplings (tr : list event) : list (image * (Z * Z) * Resampling) :=
  omap (λ ev, match ev with
              | EvResize im sz flt _ => Some (im, sz, flt)
              | _ => None
              end) tr.

(** The exception a call ended with, if it did. *)
Definition failure (ev : event) : option exn :=
  match ev with
  | EvMakedirs _ (Some e) => Some e
  | EvOpen _ (Exc e) => Some e
  | EvResize _ _ _ (Some e) => Some e
  | EvSave _ _ _ (Some e) => Some e
  | _ => None
  end.

(** The stage of the [try] block a call belongs to: decode, resample or save. *)
Definition processing (ev : event) : bool :=
  match ev with
  | EvOpen _ _ | EvResize _ _ _ _ | EvSave _ _ _ _ => true
  | _ => false
  end.

(** A line that reports an error: both messages of the script start so. *)
Definition is_error_line (line : string) : bool := String.prefix "Error" line.

(** A progress line, as the loop prints after each save. *)
Definition is_progress_line (line : string) : bool := String.prefix "Generated: " line.

(** A run in which no error is reported: it returned to its caller and
    printed no error line. *)
Definition clean (r : res value * state) : Prop :=
  raises r.1 = false ∧ forallb (λ l, negb (is_error_line l)) (printed (trace r.2)) = true.

(** ** The loop, step by step *)

(** The icon made for one size, and the events of a step that succeeds. *)
Definition icon_of (img : image) (s : Z) : image := Resized img s s LANCZOS.

Definition write_icon (img : image) (m : gmap string node) (s : Z) : gmap string node :=
  <[output_path s := File (Encoded "PNG" (icon_of img s))]> m.

Definition step_events (img : image) (s : Z) : list event :=
  [ EvResize img (s, s) LANCZOS None;
    EvSave (icon_of img s) (output_path s) "PNG" None;
    EvPrint ("Generated: " +:+ output_path s) ].

(** The environment lets the step for [s] through. *)
Definition unhindered (env : faults) (img : image) (s : Z) : Prop :=
  0 < s ∧ resize_fault env img (s, s) LANCZOS = None
  ∧ save_fault env (icon_of img s) (output_path s) = None.

(** The three ways the loop can end, from a state [st] over [sizes]. *)
Inductive loop_shape (env : faults) (img : image) (st : state) (sizes : list Z) :
  res unit * state → Prop :=
| LoopDone st' :
    fs st' = foldl (write_icon img) (fs st) sizes →
    trace st' = trace st ++ flat_map (step_events img) sizes →
    Forall (unhindered env img) sizes →
    loop_shape env img st sizes (Val tt, st')
| LoopResizeFailed done s rest e st' :
    sizes = done ++ s :: rest →
    fs st' = foldl (write_icon img) (fs st) done →
    trace st' = trace st ++ flat_map (step_events img) done
                  ++ [EvResize img (s, s) LANCZOS (Some e)] →
    loop_shape env img st sizes (Exc e, st')
| LoopSaveFailed done s rest e st' :
    sizes = done ++ s :: rest →
    (fs st' = foldl (write_icon img) (fs st) done
     ∨ ∃ c, fs st' = <[output_path s := File c]> (foldl (write_icon img) (fs st) done)) →
    trace st' = trace st ++ flat_map (step_events img) done
                  ++ [EvResize img (s, s) LANCZOS None;
                      EvSave (icon_of img s) (output_path s) "PNG" (Some e)] →
    loop_shape env img st sizes (Exc e, st').

(** One step of the loop: it either extends the state by an icon, or raises. *)
Inductive step_shape (env : faults) (img : image) (st : state) (s : Z) :
  res unit * state → Prop :=
| StepDone :
    unhindered env img s →
    is_dir (fs st) (output_path s) = false →
    step_shape env img st s
      (Val tt, {| fs := write_icon img (fs st) s;
                  trace := trace st ++ step_events img s |})
| StepResizeFailed e :
    step_shape env img st s
      (Exc e, {| fs := fs st;
                 trace := trace st ++ [EvResize img (s, s) LANCZOS (Some e)] |})
| StepSaveFailed e m' :
    (m' = fs st ∨ ∃ c, m' = <[output_path s := File c]> (fs st)) →
    step_shape env img st s
      (Exc e, {| fs := m';
                 trace := trace st ++ [EvResize img (s, s) LANCZOS None;
                             EvSave (icon_of img s) (output_path s) "PNG" (Some e)] |}).

(** ** The run, case by case *)

(** The directory can be had: it is there, or nothing is in its place and the
    system lets it be made. *)
Definition dir_creatable (env : faults) (m : gmap string node) : Prop :=
  is_dir m "icons" = true ∨ (m !! "icons" = None ∧ mkdir_fault env "icons" = None).

(** What [Image.open] makes of the source file. *)
Definition decoded (env : faults) (m : gmap string node) (img : image) : Prop :=
  ∃ fmt, m !! source = Some (File (Encoded fmt img)) ∧ open_fault env source = None.

Definition header (img : image) : list event :=
  [ EvExists source true;
    EvMakedirs "icons" None;
    EvOpen source (Val img);
    EvPrint ("Source image: " +:+ str (size img).1 +:+ "x" +:+ str (size img).2) ].

Definition error_report (e : exn) : event :=
  EvPrint ("Error generating icons: " +:+ exn_str e).

Definition success_report : list event :=
  [ EvPrint (newline +:+ "All icons generated successfully!");
    EvPrint "Update manifest.json to reference these icons." ].

Inductive run_shape (env : faults) (m : gmap string node) : res value * state → Prop :=
| RunMissing :
    m !! source = None →
    run_shape env m
      (Val VNone,
       State m [EvExists source false; EvPrint ("Error: " +:+ source +:+ " not found")])
| RunDirFailed e :
    is_Some (m !! source) →
    ¬ dir_creatable env m →
    run_shape env m
      (Exc e, State m [EvExists source true; EvMakedirs "icons" (Some e)])
| RunOpenFailed e :
    is_Some (m !! source) →
    dir_creatable env m →
    run_shape env m
      (Val VNone,
       State (<["icons" := Dir]> m)
         [EvExists source true; EvMakedirs "icons" None;
          EvOpen source (Exc e); error_report e])
| RunLoopFailed img e st :
    decoded env m img →
    dir_creatable env m →
    loop_shape env img (State (<["icons" := Dir]> m) (header img)) SIZES (Exc e, st) →
    run_shape env m (Val VNone, State (fs st) (trace st ++ [error_report e]))
| RunSuccess img st :
    decoded env m img →
    dir_creatable env m →
    loop_shape env img (State (<["icons" := Dir]> m) (header img)) SIZES (Val tt, st) →
    run_shape env m (Val VNone, State (fs st) (trace st ++ success_report)).

(** ** The script as a program *)



(** ** Sample inputs *)

(** A working directory holding a 1024x1024 source image and nothing else. *)
Definition sample_fs : gmap string node :=
  {[ "speech-bubble.png" := File (Encoded "PNG" (Bitmap 1024 1024 "bubble")) ]}.

(** The same with a source that is wider than high. *)
Definition wide_fs : gmap string node :=
  {[ "speech-bubble.png" := File (Encoded "PNG" (Bitmap 300 200 "banner")) ]}.

(** The source is there, and so is a regular file called [icons]. *)
Definition blocked_fs : gmap string node :=
  <[ "icons" := File (Opaque "") ]> sample_fs.

(** The source file holds bytes that are no image. *)
Definition corrupt_fs : gmap string node :=
  {[ "speech-bubble.png" := File (Opaque "garbage") ]}.

(** The disk fills up when the third icon is written. *)
Definition disk_full : faults :=
  {| mkdir_fault := λ _, None;
     open_fault := λ _, None;
     resize_fault := λ _ _ _, None;
     save_fault := λ _ p,
       if bool_decide (p = "icons/icon-128.png")
       then Some (Exn "OSError" "No space left on device", None)
       else None |}.

(** The source path is taken by a directory. *)
Definition dir_source_fs : gmap string node :=
  {[ "speech-bubble.png" := Dir ]}.

(** * Properties *)

Arguments output_path : simpl never.
Arguments str : simpl never.

Lemma icon_step_shape env img st s :
  step_shape env img st s (icon_step env img s st).
Proof.
  destruct st as [m tr].
  unfold icon_step, Image_resize, Image_save, print, bind, emit, get_fs, put_fs,
    raise, ret; simpl.
  case_bool_decide as Hpos; simpl.
  - destruct (resize_fault env img (s, s) LANCZOS) as [e|] eqn:Hr; simpl.
    { apply (StepResizeFailed env img (State m tr) s e). }
    destruct (is_dir m (output_path s)) eqn:Hd; simpl.
    { rewrite <- app_assoc. apply (StepSaveFailed env img (State m tr)); auto. }
    destruct (bool_decide (dirname (output_path s) = "")
              || is_dir m (dirname (output_path s))) eqn:Hp; simpl.
    + destruct (save_fault env (Resized img s s LANCZOS) (output_path s))
        as [[e [c|]]|] eqn:Hs; simpl; rewrite <- ?app_assoc; simpl.
      * apply (StepSaveFailed env img (State m tr)); eauto.
      * apply (StepSaveFailed env img (State m tr)); eauto.
      * apply (StepDone env img (State m tr)); [|done].
        split; [tauto|]. split; done.
    + rewrite <- app_assoc. apply (StepSaveFailed env img (State m tr)); auto.
  - apply (StepResizeFailed env img (State m tr) s).
Qed.

Lemma for_each_shape env img sizes :
  ∀ st, loop_shape env img st sizes (for_each sizes (icon_step env img) st).
Proof.
  induction sizes as [|s sizes IH]; intros st.
  - apply LoopDone; simpl; [done | by rewrite app_nil_r | constructor].
  - simpl. unfold bind at 1.
    destruct (icon_step_shape env img st s) as [Hok Hd|e|e m' Hm'].
    + specialize (IH {| fs := write_icon img (fs st) s;
                        trace := trace st ++ step_events img s |}).
      inversion IH as [st' Hfs Htr Hall|done s' rest e st' Hsz Hfs Htr
                      |done s' rest e st' Hsz Hfs Htr]; subst; simpl in *.
      * apply LoopDone; [done | by rewrite Htr, <- app_assoc | by constructor].
      * apply (LoopResizeFailed _ _ _ _ (s :: done) s' rest); [done | done |].
        rewrite Htr, <- !app_assoc. done.
      * apply (LoopSaveFailed _ _ _ _ (s :: done) s' rest); [done | done |].
        rewrite Htr, <- !app_assoc. done.
    + apply (LoopResizeFailed _ _ _ _ [] s sizes); done.
    + apply (LoopSaveFailed _ _ _ _ [] s sizes); done.
Qed.

Arguments for_each : simpl never.

Lemma os_makedirs_cases env m tr :
  (dir_creatable env m
   ∧ os_makedirs env "icons" true (State m tr)
     = (Val tt, State (<["icons" := Dir]> m) (tr ++ [EvMakedirs "icons" None])))
  ∨ (∃ e, ¬ dir_creatable env m
      ∧ os_makedirs env "icons" true (State m tr)
        = (Exc e, State m (tr ++ [EvMakedirs "icons" (Some e)]))).
Proof.
  unfold os_makedirs, dir_creatable, is_dir, bind, get_fs, put_fs, emit, raise; simpl.
  destruct (m !! "icons") as [[|c]|] eqn:Hm; simpl.
  - left. split; [by left|]. by rewrite insert_id.
  - right. eexists. split; [|done]. by intros [?|[? _]].
  - destruct (mkdir_fault env "icons") as [e|] eqn:Hf; simpl.
    + right. eexists. split; [|done]. by intros [?|[_ ?]].
    + left. split; [by right|done].
Qed.

Lemma Image_open_cases env m tr :
  is_Some (m !! source) →
  (∃ img, decoded env m img
     ∧ Image_open env source (State m tr) = (Val img, State m (tr ++ [EvOpen source (Val img)])))
  ∨ (∃ e, Image_open env source (State m tr)
          = (Exc e, State m (tr ++ [EvOpen source (Exc e)]))).
Proof.
  intros [n Hn].
  unfold Image_open, decoded, bind, get_fs, emit, raise, ret; simpl. rewrite Hn.
  destruct n as [|c]; simpl; [right; eauto|].
  destruct (open_fault env source) as [e|] eqn:Hf; simpl; [right; eauto|].
  destruct c as [fmt im|b]; simpl; [left|right]; eauto.
Qed.

Lemma run_cases env m : run_shape env m (run env m).
Proof.
  unfold run, generate_icons, os_path_exists.
  unfold bind at 1 2 3, get_fs, emit, ret; simpl.
  case_bool_decide as Hsrc; simpl.
  - unfold bind at 1.
    destruct (os_makedirs_cases env m [EvExists source true])
      as [[Hdir ->]|[e [Hnd ->]]]; simpl; [|by apply RunDirFailed].
    unfold bind at 1, try_except, try_body. unfold bind at 1.
    destruct (Image_open_cases env (<["icons" := Dir]> m)
                [EvExists source true; EvMakedirs "icons" None]) as [[img [Himg ->]]|[e ->]].
    { rewrite lookup_insert_ne; done. }
    + assert (decoded env m img) as Hdec.
      { destruct Himg as [fmt [H1 H2]]. exists fmt.
        rewrite lookup_insert_ne in H1; done. }
      unfold bind at 1, print at 1, emit; simpl. unfold bind at 1.
      pose proof (for_each_shape env img SIZES
                    (State (<["icons" := Dir]> m) (header img))) as Hloop.
      unfold header in Hloop at 2.
      match goal with
      | |- context [for_each ?xs ?f ?s0] =>
          destruct (for_each xs f s0) as [[[]|e] st] eqn:Hrun
      end; simpl.
      * unfold bind, print, emit, ret; simpl. rewrite <- app_assoc.
        by apply (RunSuccess env m img st).
      * unfold print, emit, ret; simpl. by apply (RunLoopFailed env m img e st).
    + simpl. unfold print, emit, ret; simpl. by apply RunOpenFailed.
  - unfold bind, print, emit, ret; simpl.
    apply RunMissing. by apply eq_None_not_Some.
Qed.

(** ** Facts about the size list and the paths *)

Lemma output_paths :
  output_path <$> SIZES
  = [ "icons/icon-72.png"; "icons/icon-96.png"; "icons/icon-128.png";
      "icons/icon-144.png"; "icons/icon-152.png"; "icons/icon-192.png";
      "icons/icon-384.png"; "icons/icon-512.png" ].
Proof. vm_compute. reflexivity. Qed.

Lemma output_paths_NoDup : NoDup (output_path <$> SIZES).
Proof. rewrite output_paths. apply (bool_decide_unpack _). vm_compute. exact I. Qed.

Lemma SIZES_positive : Forall (λ s, 0 < s) SIZES.
Proof. unfold SIZES. repeat constructor. Qed.

Lemma output_paths_in_icons : Forall (λ s, dirname (output_path s) = "icons") SIZES.
Proof. unfold SIZES. repeat constructor. Qed.

(** No output path is the directory, the source or the manifest. *)
Lemma output_paths_apart p :
  p ∈ output_path <$> SIZES →
  p ≠ "icons" ∧ p ≠ source ∧ p ≠ "manifest.json".
Proof.
  rewrite output_paths. intros Hp.
  repeat (apply elem_of_cons in Hp as [->|Hp]; [by repeat split|]).
  by apply elem_of_nil in Hp.
Qed.

Lemma icons_not_an_output : "icons" ∉ output_path <$> SIZES.
Proof. intros Hin. by apply output_paths_apart in Hin as [? _]. Qed.

(** ** Facts about traces *)

Section Traces.
Context (img : image).

Lemma printed_app tr1 tr2 : printed (tr1 ++ tr2) = printed tr1 ++ printed tr2.
Proof. apply omap_app. Qed.

Lemma saved_app tr1 tr2 : saved (tr1 ++ tr2) = saved tr1 ++ saved tr2.
Proof. apply omap_app. Qed.

Lemma resamplings_app tr1 tr2 :
  resamplings (tr1 ++ tr2) = resamplings tr1 ++ resamplings tr2.
Proof. apply omap_app. Qed.

Lemma saved_steps sizes :
  saved (flat_map (step_events img) sizes)
  = (λ s, (icon_of img s, output_path s, "PNG")) <$> sizes.
Proof. induction sizes as [|s sizes IH]; simpl; [done|]. f_equal. exact IH. Qed.

Lemma printed_steps sizes :
  printed (flat_map (step_events img) sizes)
  = (λ s, "Generated: " +:+ output_path s) <$> sizes.
Proof. induction sizes as [|s sizes IH]; simpl; [done|]. f_equal. exact IH. Qed.

Lemma resamplings_steps sizes :
  resamplings (flat_map (step_events img) sizes)
  = (λ s, (img, (s, s), LANCZOS)) <$> sizes.
Proof. induction sizes as [|s sizes IH]; simpl; [done|]. f_equal. exact IH. Qed.

Lemma steps_never_fail sizes :
  Forall (λ ev, failure ev = None) (flat_map (step_events img) sizes).
Proof. induction sizes as [|s sizes IH]; simpl; repeat constructor; done. Qed.

Lemma header_never_fails : Forall (λ ev, failure ev = None) (header img).
Proof. repeat constructor. Qed.

(** The icons written so far are on disk, the rest of the disk is as it was. *)
Lemma lookup_write_icons_other (m : gmap string node) sizes p :
  p ∉ output_path <$> sizes →
  foldl (write_icon img) m sizes !! p = m !! p.
Proof.
  revert m. induction sizes as [|s sizes IH]; intros m Hp; simpl; [done|].
  rewrite fmap_cons in Hp. apply not_elem_of_cons in Hp as [Hne Hp].
  rewrite IH by done. unfold write_icon. by rewrite lookup_insert_ne.
Qed.

Lemma lookup_write_icons (m : gmap string node) sizes s :
  NoDup (output_path <$> sizes) →
  s ∈ sizes →
  foldl (write_icon img) m sizes !! output_path s
  = Some (File (Encoded "PNG" (icon_of img s))).
Proof.
  revert m. induction sizes as [|s' sizes IH]; intros m Hnd Hs; simpl.
  { by apply elem_of_nil in Hs. }
  rewrite fmap_cons in Hnd. apply NoDup_cons in Hnd as [Hfresh Hnd].
  destruct (decide (s ∈ sizes)) as [Hin|Hout]; [by apply IH|].
  apply elem_of_cons in Hs as [->|Hs]; [|done].
  rewrite lookup_write_icons_other by done.
  unfold write_icon. by rewrite lookup_insert_eq.
Qed.

(** Among the writes of the loop, exactly one goes to the path of [s]. *)
Lemma saved_once sizes s :
  NoDup (output_path <$> sizes) →
  s ∈ sizes →
  filter (λ w, w.1.2 = output_path s)
    ((λ s, (icon_of img s, output_path s, "PNG")) <$> sizes)
  = [(icon_of img s, output_path s, "PNG")].
Proof.
  induction sizes as [|s' sizes IH]; intros Hnd Hs.
  { by apply elem_of_nil in Hs. }
  rewrite fmap_cons in Hnd. apply NoDup_cons in Hnd as [Hfresh Hnd].
  rewrite fmap_cons.
  destruct (decide (s ∈ sizes)) as [Hin|Hout].
  - rewrite filter_cons_False; [by apply IH|]. simpl. intros Heq.
    apply Hfresh. rewrite Heq. by apply list_elem_of_fmap_2.
  - apply elem_of_cons in Hs as [->|Hs]; [|done].
    rewrite filter_cons_True by done. f_equal.
    clear IH Hnd. induction sizes as [|t sizes IH]; [done|].
    rewrite fmap_cons in Hfresh. apply not_elem_of_cons in Hfresh as [Hne Hfresh].
    apply not_elem_of_cons in Hout as [_ Hout].
    rewrite fmap_cons, filter_cons_False by (simpl; congruence). by apply IH.
Qed.

End Traces.

(** A trace with a single failing call splits around it in one way only. *)
Lemma failure_unique (before after pre post : list event) (bad ev : event) :
  Forall (λ x, failure x = None) before →
  before ++ bad :: after = pre ++ ev :: post →
  is_Some (failure ev) →
  Forall (λ x, failure x = None) after →
  pre = before ∧ ev = bad ∧ post = after.
Proof.
  intros Hb. revert pre. induction Hb as [|x before Hx Hb IH]; intros pre Heq Hev Ha.
  - destruct pre as [|y pre]; simpl in Heq.
    + by inversion Heq.
    + inversion Heq as [[Hy Hrest]]. subst after.
      apply Forall_app in Ha as [_ Ha]. apply Forall_cons in Ha as [Hno _].
      rewrite Hno in Hev. by destruct Hev.
  - destruct pre as [|y pre]; simpl in Heq.
    + inversion Heq as [[Hy Hrest]]. subst. rewrite Hx in Hev. by destruct Hev.
    + inversion Heq as [[Hy Hrest]]. subst y.
      destruct (IH pre Hrest Hev Ha) as (-> & -> & ->). done.
Qed.

Lemma no_failure_absent (tr pre post : list event) (ev : event) :
  Forall (λ x, failure x = None) tr →
  tr = pre ++ ev :: post →
  failure ev = None.
Proof.
  intros Hall ->. apply Forall_app in Hall as [_ Hall].
  by apply Forall_cons in Hall as [? _].
Qed.

Lemma SIZES_length : length SIZES = 8%nat.
Proof. reflexivity. Qed.

Lemma progress_steps (sizes : list Z) :
  filter (λ l, is_progress_line l = true)
    ((λ s, "Generated: " +:+ output_path s) <$> sizes)
  = (λ s, "Generated: " +:+ output_path s) <$> sizes.
Proof.
  induction sizes as [|s sizes IH]; [done|].
  rewrite fmap_cons, filter_cons_True by done. by rewrite IH.
Qed.

Lemma filter_progress_app (l1 l2 : list string) :
  filter (λ l, is_progress_line l = true) (l1 ++ l2)
  = filter (λ l, is_progress_line l = true) l1
    ++ filter (λ l, is_progress_line l = true) l2.
Proof. apply filter_app. Qed.

(** ** When the run goes through *)

(** From here on the size list is used through its lemmas only. *)
Opaque SIZES.

Lemma os_makedirs_ok env m tr :
  dir_creatable env m →
  os_makedirs env "icons" true (State m tr)
  = (Val tt, State (<["icons" := Dir]> m) (tr ++ [EvMakedirs "icons" None])).
Proof.
  unfold os_makedirs, dir_creatable, is_dir, bind, get_fs, put_fs, emit; simpl.
  intros [Hd|[Hn Hf]].
  - destruct (m !! "icons") as [[|c]|] eqn:Hm; try done. by rewrite insert_id.
  - by rewrite Hn, Hf.
Qed.

Lemma Image_open_ok env m tr img :
  decoded env m img →
  Image_open env source (State m tr)
  = (Val img, State m (tr ++ [EvOpen source (Val img)])).
Proof.
  intros [fmt [Hm Hf]].
  unfold Image_open, bind, get_fs, emit, ret; simpl. by rewrite Hm, Hf.
Qed.

Lemma icon_step_ok env img s st :
  unhindered env img s →
  dirname (output_path s) = "icons" →
  is_dir (fs st) "icons" = true →
  is_dir (fs st) (output_path s) = false →
  icon_step env img s st
  = (Val tt, State (write_icon img (fs st) s) (trace st ++ step_events img s)).
Proof.
  intros (Hpos & Hr & Hs) Hdn Hicons Htarget. destruct st as [m tr]; simpl in *.
  unfold icon_step, Image_resize, Image_save, print, bind, emit, get_fs, put_fs,
    raise, ret; simpl.
  rewrite bool_decide_eq_true_2 by done. rewrite Hr; simpl.
  rewrite Htarget, Hdn, Hicons, orb_true_r. unfold icon_of in Hs. rewrite Hs; simpl.
  by rewrite <- !app_assoc.
Qed.

Lemma is_dir_write_icon img m s p :
  is_dir (write_icon img m s) p
  = if decide (output_path s = p) then false else is_dir m p.
Proof.
  unfold is_dir, write_icon. rewrite lookup_insert. by case_decide.
Qed.

Lemma for_each_ok env img sizes :
  ∀ st,
    Forall (unhindered env img) sizes →
    Forall (λ s, dirname (output_path s) = "icons") sizes →
    is_dir (fs st) "icons" = true →
    (∀ s, s ∈ sizes → is_dir (fs st) (output_path s) = false) →
    for_each sizes (icon_step env img) st
    = (Val tt, State (foldl (write_icon img) (fs st) sizes)
                 (trace st ++ flat_map (step_events img) sizes)).
Proof.
  induction sizes as [|s sizes IH]; intros st Hun Hdn Hicons Htargets.
  - destruct st. unfold for_each, ret; simpl. by rewrite app_nil_r.
  - apply Forall_cons in Hun as [Hs Hun]. apply Forall_cons in Hdn as [Hd Hdn].
    unfold for_each; fold (@for_each Z). unfold bind at 1.
    rewrite icon_step_ok; [|done|done|done|apply Htargets; left].
    rewrite IH; simpl; [by rewrite <- app_assoc|done|done| |].
    + rewrite is_dir_write_icon. case_decide as Heq; [|done].
      rewrite Heq in Hd. vm_compute in Hd. discriminate.
    + intros t Ht. rewrite is_dir_write_icon. case_decide; [done|].
      apply Htargets. by right.
Qed.

Lemma run_ok env m img :
  decoded env m img →
  dir_creatable env m →
  Forall (unhindered env img) SIZES →
  (∀ s, s ∈ SIZES → is_dir m (output_path s) = false) →
  run env m
  = (Val VNone,
     State (foldl (write_icon img) (<["icons" := Dir]> m) SIZES)
       (header img ++ flat_map (step_events img) SIZES ++ success_report)).
Proof.
  intros Hdec Hdir Hun Htargets.
  assert (is_Some (m !! source)) as Hsrc by (destruct Hdec as [? [-> _]]; eauto).
  unfold run, generate_icons, os_path_exists.
  unfold bind at 1 2 3, get_fs, emit, ret; simpl.
  rewrite bool_decide_eq_true_2 by done; simpl.
  unfold bind at 1. rewrite os_makedirs_ok by done; simpl.
  unfold bind at 1, try_except, try_body. unfold bind at 1.
  rewrite (Image_open_ok env _ _ img); simpl.
  2:{ destruct Hdec as [fmt [H1 H2]]. exists fmt. by rewrite lookup_insert_ne. }
  unfold bind at 1, print at 1, emit; simpl. unfold bind at 1.
  rewrite for_each_ok; simpl.
  - unfold bind, print, emit; simpl. by rewrite <- !app_assoc.
  - done.
  - apply output_paths_in_icons.
  - unfold is_dir. by rewrite lookup_insert_eq.
  - intros s Hs. unfold is_dir. rewrite lookup_insert_ne; [by apply Htargets|].
    intros Heq. apply (list_elem_of_fmap_2 output_path) in Hs.
    rewrite <- Heq in Hs. by apply output_paths_apart in Hs as [? _].
Qed.

(** ** Clean runs and failed runs *)

Lemma error_report_is_error e tr :
  forallb (λ l, negb (is_error_line l)) (printed (tr ++ [error_report e])) = false.
Proof.
  rewrite printed_app, forallb_app. simpl. apply andb_false_r.
Qed.

(** A run reports no error exactly when it went all the way. *)
Lemma clean_run env m :
  clean (run env m) →
  ∃ img,
    decoded env m img ∧ dir_creatable env m ∧ Forall (unhindered env img) SIZES
    ∧ run env m
      = (Val VNone,
         State (foldl (write_icon img) (<["icons" := Dir]> m) SIZES)
           (header img ++ flat_map (step_events img) SIZES ++ success_report)).
Proof.
  intros [Hret Hquiet].
  destruct (run_cases env m) as [Hm|e Hs Hd|e Hs Hd|img e st Hdec Hd Hloop
                                |img st Hdec Hd Hloop]; simpl in *.
  - vm_compute in Hquiet. discriminate.
  - discriminate.
  - discriminate.
  - by rewrite error_report_is_error in Hquiet.
  - exists img. inversion Hloop as [st' Hfs Htr Hun| |]; subst; simpl in *.
    by rewrite Hfs, Htr.
Qed.

(** A call that fails ends the run: a failure of [os.makedirs] reaches the
    caller, a failure while processing is reported and leaves on disk the
    directory and every icon saved before it. *)
Lemma failed_run env m pre ev post e :
  trace (run env m).2 = pre ++ ev :: post →
  failure ev = Some e →
  (ev = EvMakedirs "icons" (Some e) ∧ post = []
   ∧ run env m = (Exc e, State m (pre ++ [ev])))
  ∨ (processing ev = true ∧ post = [error_report e]
     ∧ (run env m).1 = Val VNone
     ∧ EvMakedirs "icons" None ∈ pre
     ∧ fs (run env m).2 !! "icons" = Some Dir
     ∧ ∀ im p fmt, (im, p, fmt) ∈ saved pre →
         fs (run env m).2 !! p = Some (File (Encoded fmt im))).
Proof.
  intros Htr Hev.
  assert (is_Some (failure ev)) as Hfail by eauto.
  pose proof output_paths_NoDup as Hnd.
  pose proof icons_not_an_output as Hicons.
  destruct (run_cases env m) as [Hm|e' Hs Hd|e' Hs Hd|img e' st Hdec Hd Hloop
                                |img st Hdec Hd Hloop]; cbn [fst snd fs trace] in *.
  - apply (no_failure_absent _ pre post ev) in Htr; [congruence|repeat constructor].
  - left.
    apply (failure_unique [EvExists source true] [] pre post) in Htr
        as (-> & -> & ->); [|repeat constructor..|done|constructor].
    simpl in Hev. by simplify_eq.
  - right.
    apply (failure_unique [EvExists source true; EvMakedirs "icons" None]
             [error_report e'] pre post) in Htr
        as (-> & -> & ->); [|repeat constructor..|done|repeat constructor].
    simpl in Hev. simplify_eq. split_and!; try done.
    + set_solver.
    + by rewrite lookup_insert_eq.
    + simpl. intros ??? Hin. by apply elem_of_nil in Hin.
  - right.
    inversion Hloop as [|done s rest e0 st' Hsz Hfs Htr'
                        |done s rest e0 st' Hsz Hfs Htr']; subst e0 st';
      cbn [fst snd fs trace] in *;
      rewrite Hsz, fmap_app, fmap_cons in Hnd, Hicons;
      apply NoDup_app in Hnd as (Hnd & Hne & _);
      apply not_elem_of_app in Hicons as [Hdone Hs'];
      apply not_elem_of_cons in Hs' as [Hs' _].
    + rewrite Htr', <- !app_assoc in Htr. cbn [app] in Htr.
      rewrite app_assoc in Htr.
      apply (failure_unique _ [error_report e']) in Htr as (-> & -> & ->);
        [| |done|repeat constructor].
      2:{ apply Forall_app; split; [apply header_never_fails|apply steps_never_fail]. }
      simpl in Hev. simplify_eq. split_and!; try done.
      * set_solver.
      * rewrite Hfs, lookup_write_icons_other by done. by rewrite lookup_insert_eq.
      * intros im p fmt. rewrite saved_app, saved_steps. simpl.
        intros Hin. apply list_elem_of_fmap in Hin as [t [Ht Hin]]. simplify_eq.
        rewrite Hfs. by apply lookup_write_icons.
    + rewrite Htr', <- !app_assoc in Htr. cbn [app] in Htr.
      change (?a ++ ?b ++ EvResize img (s, s) LANCZOS None :: ?c)
        with (a ++ b ++ [EvResize img (s, s) LANCZOS None] ++ c) in Htr.
      rewrite (app_assoc (flat_map _ _)), (app_assoc (header img)) in Htr.
      apply (failure_unique _ [error_report e']) in Htr as (-> & -> & ->);
        [| |done|repeat constructor].
      2:{ repeat (apply Forall_app; split);
          [apply header_never_fails|apply steps_never_fail|repeat constructor]. }
      simpl in Hev. simplify_eq.
      assert (∀ p, p ≠ output_path s →
                fs st !! p = foldl (write_icon img) (<["icons" := Dir]> m) done !! p)
        as Hsame.
      { intros p Hp. destruct Hfs as [->|[c ->]]; [done|].
        by rewrite lookup_insert_ne. }
      split_and!; try done.
      * apply elem_of_app. left. unfold header. by repeat constructor.
      * rewrite Hsame, lookup_write_icons_other by done. by rewrite lookup_insert_eq.
      * intros im p fmt. rewrite !saved_app, saved_steps. simpl. rewrite app_nil_r.
        intros Hin. apply list_elem_of_fmap in Hin as [t [Ht Hin]]. simplify_eq.
        rewrite Hsame; [by apply lookup_write_icons|].
        intros Heq. apply (Hne (output_path t)); [by apply list_elem_of_fmap_2|].
        rewrite Heq. left.
  - inversion Hloop as [st' Hfs Htr' Hun| |]; subst st'; cbn [fst snd fs trace] in *.
    apply (no_failure_absent _ pre post ev) in Htr; [congruence|].
    rewrite Htr', <- app_assoc.
    apply Forall_app; split; [apply header_never_fails|].
    apply Forall_app; split; [apply steps_never_fail|repeat constructor].
Qed.

(** ** What every run does *)

(** Without the source nothing happens beyond the report. *)
Lemma run_without_source env m :
  m !! source = None →
  run env m
  = (Val VNone,
     State m [EvExists source false; EvPrint ("Error: " +:+ source +:+ " not found")]).
Proof.
  intros Hm. unfold run, generate_icons, os_path_exists.
  unfold bind, get_fs, emit, print, ret; simpl. rewrite Hm.
  rewrite bool_decide_eq_false_2; [done|]. by intros [? ?].
Qed.

(** The sizes whose icon was saved ([done]) and those whose resampling was
    asked for ([tried]) are initial stretches of the list; everything else on
    disk is as it was. *)
Lemma run_summary env m :
  ∃ img done tried,
    done `prefix_of` tried ∧ tried `prefix_of` SIZES
    ∧ saved (trace (run env m).2)
      = (λ s, (icon_of img s, output_path s, "PNG")) <$> done
    ∧ filter (λ l, is_progress_line l = true) (printed (trace (run env m).2))
      = (λ s, "Generated: " +:+ output_path s) <$> done
    ∧ resamplings (trace (run env m).2) = (λ s, (img, (s, s), LANCZOS)) <$> tried
    ∧ (∀ p, p ∉ output_path <$> tried → p ≠ "icons" →
         fs (run env m).2 !! p = m !! p)
    ∧ (fs (run env m).2 !! "icons" = m !! "icons"
       ∨ fs (run env m).2 !! "icons" = Some Dir)
    ∧ (done = SIZES →
       run env m
       = (Val VNone,
          State (foldl (write_icon img) (<["icons" := Dir]> m) SIZES)
            (header img ++ flat_map (step_events img) SIZES ++ success_report))).
Proof.
  pose proof SIZES_length as Hlen.
  pose proof icons_not_an_output as Hicons.
  assert (([] : list Z) = SIZES → False) as Hnil.
  { intros Heq. rewrite <- Heq in Hlen. discriminate. }
  destruct (run_cases env m) as [Hm|e Hs Hd|e Hs Hd|img e st Hdec Hd Hloop
                                |img st Hdec Hd Hloop]; cbn [snd fs trace].
  - exists (Bitmap 0 0 ""), [], [].
    split_and!; [done|apply prefix_nil|done|done|done|done|by left|done].
  - exists (Bitmap 0 0 ""), [], [].
    split_and!; [done|apply prefix_nil|done|done|done|done|by left|done].
  - exists (Bitmap 0 0 ""), [], [].
    split_and!; [done|apply prefix_nil|done|done|done| | |done].
    + intros p _ Hp. by rewrite lookup_insert_ne.
    + right. by rewrite lookup_insert_eq.
  - inversion Hloop as [|done s rest e0 st' Hsz Hfs Htr'
                        |done s rest e0 st' Hsz Hfs Htr']; subst e0 st';
      cbn [fs trace] in *; rewrite Htr'.
    + exists img, done, (done ++ [s]). split_and!.
      * by apply prefix_app_r.
      * rewrite Hsz. apply prefix_app, prefix_cons, prefix_nil.
      * rewrite !saved_app, saved_steps. simpl. by rewrite ?app_nil_r.
      * rewrite !printed_app, printed_steps, !filter_progress_app, progress_steps.
        simpl. by rewrite ?app_nil_r.
      * rewrite !resamplings_app, resamplings_steps, fmap_app.
        simpl. by rewrite ?app_nil_r.
      * intros p Hp Hne. rewrite Hfs, lookup_write_icons_other.
        -- by rewrite lookup_insert_ne.
        -- rewrite fmap_app in Hp. by apply not_elem_of_app in Hp as [? _].
      * right. rewrite Hfs, lookup_write_icons_other.
        -- by rewrite lookup_insert_eq.
        -- rewrite Hsz, fmap_app in Hicons. by apply not_elem_of_app in Hicons as [? _].
      * intros Heq. apply (f_equal length) in Hsz.
        rewrite length_app, Heq in Hsz. simpl in Hsz. lia.
    + exists img, done, (done ++ [s]).
      rewrite fmap_app in *. rewrite Hsz, fmap_app, fmap_cons in Hicons.
      apply not_elem_of_app in Hicons as [Hdone Hs'].
      apply not_elem_of_cons in Hs' as [Hs' _].
      assert (∀ p, p ≠ output_path s →
                fs st !! p = foldl (write_icon img) (<["icons" := Dir]> m) done !! p)
        as Hsame.
      { intros p Hp. destruct Hfs as [->|[c ->]]; [done|].
        by rewrite lookup_insert_ne. }
      split_and!.
      * by apply prefix_app_r.
      * rewrite Hsz. apply prefix_app, prefix_cons, prefix_nil.
      * rewrite !saved_app, saved_steps. simpl. by rewrite ?app_nil_r.
      * rewrite !printed_app, printed_steps, !filter_progress_app, progress_steps.
        simpl. by rewrite ?app_nil_r.
      * rewrite !resamplings_app, resamplings_steps. simpl. by rewrite ?app_nil_r.
      * intros p Hp Hne. rewrite fmap_app in Hp.
        apply not_elem_of_app in Hp as [Hp1 Hp2].
        apply not_elem_of_cons in Hp2 as [Hp2 _].
        rewrite Hsame, lookup_write_icons_other by done. by rewrite lookup_insert_ne.
      * right. rewrite Hsame, lookup_write_icons_other by done.
        by rewrite lookup_insert_eq.
      * intros Heq. apply (f_equal length) in Hsz.
        rewrite length_app, Heq in Hsz. simpl in Hsz. lia.
  - inversion Hloop as [st' Hfs Htr' Hun| |]; subst st'; cbn [fs trace] in *.
    rewrite Htr', Hfs.
    exists img, SIZES, SIZES. split_and!.
    + done.
    + done.
    + rewrite !saved_app, saved_steps. simpl. by rewrite ?app_nil_r.
    + rewrite !printed_app, printed_steps, !filter_progress_app, progress_steps.
      simpl. by rewrite ?app_nil_r.
    + rewrite !resamplings_app, resamplings_steps. simpl. by rewrite ?app_nil_r.
    + intros p Hp Hne. rewrite lookup_write_icons_other by done.
      by rewrite lookup_insert_ne.
    + right. rewrite lookup_write_icons_other by done. by rewrite lookup_insert_eq.
    + intros _. by rewrite <- app_assoc.
Qed.

Lemma saved_all_means_done (img : image) (done : list Z) (paths : list string) :
  done `prefix_of` SIZES →
  ((λ s, (icon_of img s, output_path s, "PNG")) <$> done).*1.*2 = paths →
  length paths = length SIZES →
  done = SIZES.
Proof.
  intros Hpre <- Hlen. rewrite !length_fmap in Hlen.
  apply prefix_length_eq; [done|lia].
Qed.

(** Writing the icons of the same image again changes nothing. *)
Lemma write_icons_again img (m : gmap string node) :
  let m1 := foldl (write_icon img) (<["icons" := Dir]> m) SIZES in
  foldl (write_icon img) (<["icons" := Dir]> m1) SIZES = m1.
Proof.
  intros m1. apply map_eq. intros p.
  destruct (decide (p ∈ output_path <$> SIZES)) as [Hin|Hout].
  - apply list_elem_of_fmap in Hin as [s [-> Hs]]. unfold m1.
    by rewrite !(lookup_write_icons img) by (done || apply output_paths_NoDup).
  - rewrite lookup_write_icons_other by done.
    destruct (decide (p = "icons")) as [->|Hne].
    + rewrite lookup_insert_eq. unfold m1.
      rewrite lookup_write_icons_other by apply icons_not_an_output.
      by rewrite lookup_insert_eq.
    + by rewrite lookup_insert_ne.
Qed.

(** With the source decoded and the directory had, the run is the loop
    followed by one of the two reports. *)
Lemma run_decoded env m img :
  decoded env m img →
  dir_creatable env m →
  run env m
  = match for_each SIZES (icon_step env img)
            (State (<["icons" := Dir]> m) (header img)) with
    | (Val _, st) => (Val VNone, State (fs st) (trace st ++ success_report))
    | (Exc e, st) => (Val VNone, State (fs st) (trace st ++ [error_report e]))
    end.
Proof.
  intros Hdec Hdir.
  assert (is_Some (m !! source)) as Hsrc by (destruct Hdec as [? [-> _]]; eauto).
  unfold run, generate_icons, os_path_exists.
  unfold bind at 1 2 3, get_fs, emit, ret; simpl.
  rewrite bool_decide_eq_true_2 by done; simpl.
  unfold bind at 1. rewrite os_makedirs_ok by done; simpl.
  unfold bind at 1, try_except, try_body. unfold bind at 1.
  rewrite (Image_open_ok env _ _ img); simpl.
  2:{ destruct Hdec as [fmt [H1 H2]]. exists fmt. by rewrite lookup_insert_ne. }
  unfold bind at 1, print at 1, emit; simpl. unfold bind at 1.
  change [EvExists source true; EvMakedirs "icons" None; EvOpen source (Val img);
          EvPrint ("Source image: " +:+ str (size img).1 +:+ "x" +:+ str (size img).2)]
    with (header img).
  destruct (for_each SIZES (icon_step env img) _) as [[[]|e] st]; simpl.
  - unfold bind, print, emit, ret; simpl. by rewrite <- app_assoc.
  - done.
Qed.

(** A run that went all the way reports no error. *)
Lemma success_shape_clean img (m : gmap string node) :
  clean (Val VNone,
         State m (header img ++ flat_map (step_events img) SIZES ++ success_report)).
Proof.
  split; [done|]. cbn [snd trace].
  rewrite !printed_app, printed_steps, !forallb_app. simpl.
  rewrite andb_true_r. apply forallb_forall. intros l Hl.
  apply list_elem_of_In, list_elem_of_fmap in Hl as [s [-> _]]. done.
Qed.

(** * The claims *)

(** C1.  After a run in which no error is reported, the files written are the
    eight icon paths, each once: for every size of the list exactly one save
    went to icons/icon-<size>.png, the icon saved there is a square of that
    size, and the file holds it as a PNG. *)
Theorem icons_written_once_and_square env m :
  clean (run env m) →
  (saved (trace (run env m).2)).*1.*2 = output_path <$> SIZES
  ∧ ∀ s, s ∈ SIZES →
      ∃ icon,
        filter (λ w, w.1.2 = "icons/icon-" +:+ str s +:+ ".png")
          (saved (trace (run env m).2))
        = [(icon, "icons/icon-" +:+ str s +:+ ".png", "PNG")]
        ∧ size icon = (s, s)
        ∧ fs (run env m).2 !! ("icons/icon-" +:+ str s +:+ ".png")
          = Some (File (Encoded "PNG" icon)).
Proof.
  intros Hclean. destruct (clean_run env m Hclean) as (img & _ & _ & _ & ->).
  cbn [snd fs trace]. rewrite !saved_app, saved_steps. simpl. rewrite app_nil_r.
  split.
  - rewrite <- !list_fmap_compose. done.
  - intros s Hs. exists (icon_of img s). split_and!.
    + apply (saved_once img SIZES s); [apply output_paths_NoDup|done].
    + done.
    + apply (lookup_write_icons img); [apply output_paths_NoDup|done].
Qed.

Lemma icons_written_once_and_square_witness :
  clean (run no_faults sample_fs)
  ∧ (saved (trace (run no_faults sample_fs).2)).*1.*2 = output_path <$> SIZES
  ∧ ∀ s, s ∈ SIZES →
      ∃ icon,
        filter (λ w, w.1.2 = "icons/icon-" +:+ str s +:+ ".png")
          (saved (trace (run no_faults sample_fs).2))
        = [(icon, "icons/icon-" +:+ str s +:+ ".png", "PNG")]
        ∧ size icon = (s, s)
        ∧ fs (run no_faults sample_fs).2 !! ("icons/icon-" +:+ str s +:+ ".png")
          = Some (File (Encoded "PNG" icon)).
Proof.
  assert (clean (run no_faults sample_fs)) as Hclean.
  { split; vm_compute; reflexivity. }
  split; [exact Hclean|].
  exact (icons_written_once_and_square no_faults sample_fs Hclean).
Defined.

(** C2.  A call of the [try] block (decode, resample or save) that fails
    with [e] is caught whatever [e] is: the run returns normally, the failure
    is followed by one printed line that carries [str(e)] and by nothing
    else, so no further size is processed, and every icon saved before the
    failure is still on disk as it was written. *)
Theorem processing_failure_reported env m pre ev post e :
  trace (run env m).2 = pre ++ ev :: post →
  processing ev = true →
  failure ev = Some e →
  (run env m).1 = Val VNone
  ∧ post = [EvPrint ("Error generating icons: " +:+ exn_str e)]
  ∧ resamplings post = [] ∧ saved post = []
  ∧ ∀ im p fmt, (im, p, fmt) ∈ saved pre →
      fs (run env m).2 !! p = Some (File (Encoded fmt im)).
Proof.
  intros Htr Hproc Hfail.
  destruct (failed_run env m pre ev post e Htr Hfail)
    as [(-> & _)|(_ & -> & Hret & _ & _ & Hkept)]; [discriminate|].
  split_and!; done.
Qed.

Lemma processing_failure_reported_witness :
  (run disk_full sample_fs).1 = Val VNone
  ∧ drop 12 (trace (run disk_full sample_fs).2)
    = [EvPrint "Error generating icons: No space left on device"]
  ∧ fs (run disk_full sample_fs).2 !! "icons/icon-72.png"
    = Some (File (Encoded "PNG" (Resized (Bitmap 1024 1024 "bubble") 72 72 LANCZOS)))
  ∧ fs (run disk_full sample_fs).2 !! "icons/icon-96.png"
    = Some (File (Encoded "PNG" (Resized (Bitmap 1024 1024 "bubble") 96 96 LANCZOS)))
  ∧ fs (run disk_full sample_fs).2 !! "icons/icon-128.png" = None.
Proof.
  pose (e := Exn "OSError" "No space left on device").
  pose (icon := λ s, Resized (Bitmap 1024 1024 "bubble") s s LANCZOS).
  destruct (processing_failure_reported disk_full sample_fs
              (take 11 (trace (run disk_full sample_fs).2))
              (EvSave (icon 128) "icons/icon-128.png" "PNG" (Some e))
              (drop 12 (trace (run disk_full sample_fs).2)) e)
    as (Hret & Hpost & _ & _ & Hkept).
  { vm_compute. reflexivity. }
  { reflexivity. }
  { reflexivity. }
  split_and!.
  - exact Hret.
  - exact Hpost.
  - apply (Hkept (icon 72) "icons/icon-72.png" "PNG"). vm_compute. left.
  - apply (Hkept (icon 96) "icons/icon-96.png" "PNG"). vm_compute. right. left.
  - vm_compute. reflexivity.
Defined.

(** C3.  If the source file speech-bubble.png does not exist, the run prints
    one line, an error naming the missing file, returns normally to its
    caller, and produces no output: the file system is as it was, no
    directory was made and no icon was saved. *)
Theorem missing_source_reported env m :
  m !! "speech-bubble.png" = None →
  run env m
  = (Val VNone,
     State m [ EvExists "speech-bubble.png" false;
               EvPrint "Error: speech-bubble.png not found" ])
  ∧ saved (trace (run env m).2) = [].
Proof.
  intros Hm. rewrite (run_without_source env m Hm). done.
Qed.

Lemma missing_source_reported_witness :
  (∅ : gmap string node) !! "speech-bubble.png" = None
  ∧ run no_faults ∅
    = (Val VNone,
       State ∅ [ EvExists "speech-bubble.png" false;
                 EvPrint "Error: speech-bubble.png not found" ]).
Proof.
  split; [reflexivity|].
  apply (missing_source_reported no_faults ∅). reflexivity.
Defined.

(** Where the source is missing, or the icons directory can be had
    ([os.makedirs] does not raise), the run returns to its caller with
    [None]: a missing source is turned into a printed line, and any call that
    fails is followed by the printed report of its error and by nothing
    else. *)
Theorem no_exception_once_directory_is_had env m :
  m !! source = None
  ∨ raises (os_makedirs env "icons" true (State m [])).1 = false →
  (run env m).1 = Val VNone
  ∧ (m !! source = None →
     printed (trace (run env m).2) = ["Error: speech-bubble.png not found"])
  ∧ (∀ pre ev post e,
       trace (run env m).2 = pre ++ ev :: post → failure ev = Some e →
       post = [EvPrint ("Error generating icons: " +:+ exn_str e)]).
Proof.
  intros Hin.
  assert ((run env m).1 = Val VNone) as Hret.
  { destruct Hin as [Hm|Hdir].
    { by rewrite (run_without_source env m Hm). }
    destruct (run_cases env m) as [| e Hs Hd | | |]; try done.
    destruct (os_makedirs_cases env m []) as [[Hok _]|[e' [_ Heq]]]; [done|].
    rewrite Heq in Hdir. discriminate. }
  split_and!; [done| |].
  - intros Hm. by rewrite (run_without_source env m Hm).
  - intros pre ev post e Htr Hfail.
    destruct (failed_run env m pre ev post e Htr Hfail) as [(_ & _ & Heq)|(_ & ? & _)];
      [|done].
    rewrite Heq in Hret. discriminate.
Qed.

Lemma no_exception_once_directory_is_had_witness :
  raises (os_makedirs no_faults "icons" true (State sample_fs [])).1 = false
  ∧ (run no_faults sample_fs).1 = Val VNone.
Proof.
  split; [vm_compute; reflexivity|].
  apply (no_exception_once_directory_is_had no_faults sample_fs).
  right. vm_compute. reflexivity.
Defined.

(** C4.  The claim asks that no exception ever reaches the caller.  The code
    does not keep to it: [os.makedirs] is called one line before the [try]
    block that covers every other call.  With the source present and a
    regular file called icons in the way it raises [FileExistsError]; the
    exception reaches the caller of [generate_icons] and no report is
    printed. *)
Lemma makedirs_failure_reaches_caller :
  (run no_faults blocked_fs).1 = Exc (Exn "FileExistsError" "File exists: icons")
  ∧ printed (trace (run no_faults blocked_fs).2) = [].
Proof. split; vm_compute; reflexivity. Qed.

(** C5.  After a run without error, a second run from the resulting file
    system does not fail on the directory, whatever the environment then is;
    in the same environment it is the same run again, with the same calls and
    the same result.  Any second run without error saves each icon path
    again, exactly once, over the file the first run wrote there, with the
    same icon of size x size; the file system afterwards is exactly what the
    first run left: no path is added or lost. *)
Theorem second_run_overwrites_in_place env m :
  clean (run env m) →
  (∀ env' tr,
     raises (os_makedirs env' "icons" true (State (fs (run env m).2) tr)).1 = false)
  ∧ run env (fs (run env m).2) = run env m
  ∧ (∀ env', clean (run env' (fs (run env m).2)) →
       fs (run env' (fs (run env m).2)).2 = fs (run env m).2
       ∧ dom (fs (run env' (fs (run env m).2)).2) = dom (fs (run env m).2)
       ∧ (saved (trace (run env' (fs (run env m).2)).2)).*1.*2
         = output_path <$> SIZES
       ∧ ∀ s, s ∈ SIZES →
           ∃ icon,
             size icon = (s, s)
             ∧ fs (run env m).2 !! ("icons/icon-" +:+ str s +:+ ".png")
               = Some (File (Encoded "PNG" icon))
             ∧ filter (λ w, w.1.2 = "icons/icon-" +:+ str s +:+ ".png")
                 (saved (trace (run env' (fs (run env m).2)).2))
               = [(icon, "icons/icon-" +:+ str s +:+ ".png", "PNG")]
             ∧ fs (run env' (fs (run env m).2)).2
                 !! ("icons/icon-" +:+ str s +:+ ".png")
               = Some (File (Encoded "PNG" icon))).
Proof.
  intros Hclean.
  destruct (clean_run env m Hclean) as (img & Hdec & Hdir & Hun & Hrun).
  rewrite Hrun. cbn [snd fs].
  set (m1 := foldl (write_icon img) (<["icons" := Dir]> m) SIZES).
  assert (m1 !! "icons" = Some Dir) as Hicons.
  { unfold m1. rewrite lookup_write_icons_other by apply icons_not_an_output.
    by rewrite lookup_insert_eq. }
  assert (m1 !! source = m !! source) as Hsource.
  { unfold m1. rewrite lookup_write_icons_other.
    - by rewrite lookup_insert_ne.
    - intros Hin. by apply output_paths_apart in Hin as (_ & ? & _). }
  assert (∀ env', dir_creatable env' m1) as Hdir1.
  { intros env'. left. unfold is_dir. by rewrite Hicons. }
  assert (∀ s, s ∈ SIZES → is_dir m1 (output_path s) = false) as Htargets.
  { intros s Hs. unfold is_dir, m1.
    by rewrite (lookup_write_icons img) by (done || apply output_paths_NoDup). }
  split_and!.
  - intros env' tr. rewrite os_makedirs_ok by done. reflexivity.
  - rewrite (run_ok env m1 img); [|try done..].
    + unfold m1. by rewrite write_icons_again.
    + destruct Hdec as [fmt [Hm Hf]]. exists fmt. by rewrite Hsource.
  - intros env' Hclean'.
    destruct (clean_run env' m1 Hclean') as (img' & Hdec' & _ & _ & Hrun').
    assert (img' = img) as ->.
    { destruct Hdec as [fmt [Hm _]]. destruct Hdec' as [fmt' [Hm' _]].
      rewrite Hsource, Hm in Hm'. by simplify_eq. }
    rewrite Hrun'. cbn [snd fs trace].
    assert (foldl (write_icon img) (<["icons" := Dir]> m1) SIZES = m1) as ->
      by (unfold m1; by rewrite write_icons_again).
    rewrite !saved_app, saved_steps. simpl. rewrite app_nil_r.
    split_and!; [done|done|by rewrite <- !list_fmap_compose|].
    intros s Hs. exists (icon_of img s).
    assert (m1 !! output_path s = Some (File (Encoded "PNG" (icon_of img s)))) as Hfile.
    { apply (lookup_write_icons img); [apply output_paths_NoDup|done]. }
    split_and!; [done|exact Hfile| |exact Hfile].
    apply (saved_once img SIZES s); [apply output_paths_NoDup|done].
Qed.

Lemma second_run_overwrites_in_place_witness :
  clean (run no_faults sample_fs)
  ∧ run no_faults (fs (run no_faults sample_fs).2) = run no_faults sample_fs
  ∧ (saved (trace (run no_faults (fs (run no_faults sample_fs).2)).2)).*1.*2
    = output_path <$> SIZES
  ∧ ∃ icon,
      size icon = (72, 72)
      ∧ fs (run no_faults sample_fs).2 !! "icons/icon-72.png"
        = Some (File (Encoded "PNG" icon))
      ∧ fs (run no_faults (fs (run no_faults sample_fs).2)).2 !! "icons/icon-72.png"
        = Some (File (Encoded "PNG" icon)).
Proof.
  assert (clean (run no_faults sample_fs)) as Hclean.
  { split; vm_compute; reflexivity. }
  destruct (second_run_overwrites_in_place no_faults sample_fs Hclean)
    as (_ & Hsame & Hagain).
  assert (clean (run no_faults (fs (run no_faults sample_fs).2))) as Hclean2.
  { rewrite Hsame. exact Hclean. }
  destruct (Hagain no_faults Hclean2) as (_ & _ & Hpaths & Hicons).
  destruct (Hicons 72) as (icon & Hsize & Hfirst & _ & Hsecond).
  { vm_compute. left. }
  split_and!; [exact Hclean|exact Hsame|exact Hpaths|].
  exists icon. split_and!; [exact Hsize|exact Hfirst|exact Hsecond].
Defined.



(** C7.  Whatever the source image is, square or not, when the environment
    lets the steps through the run reports no error, and every icon on disk
    is the source resampled to exactly size x size. *)
Theorem any_source_is_forced_square env m img :
  decoded env m img →
  dir_creatable env m →
  Forall (unhindered env img) SIZES →
  (∀ s, s ∈ SIZES → is_dir m (output_path s) = false) →
  clean (run env m)
  ∧ resamplings (trace (run env m).2) = (λ s, (img, (s, s), LANCZOS)) <$> SIZES
  ∧ ∀ s, s ∈ SIZES →
      ∃ icon,
        fs (run env m).2 !! ("icons/icon-" +:+ str s +:+ ".png")
        = Some (File (Encoded "PNG" icon))
        ∧ icon = Resized img s s LANCZOS
        ∧ size icon = (s, s).
Proof.
  intros Hdec Hdir Hun Htargets.
  rewrite (run_ok env m img) by done. cbn [fst snd fs trace]. split_and!.
  - split; [done|]. cbn [snd trace].
    rewrite !printed_app, printed_steps, !forallb_app. simpl.
    rewrite andb_true_r. apply forallb_forall. intros l Hl.
    apply list_elem_of_In, list_elem_of_fmap in Hl as [s [-> _]]. done.
  - rewrite !resamplings_app, resamplings_steps. simpl. by rewrite app_nil_r.
  - intros s Hs. exists (icon_of img s). split_and!; [|done..].
    apply (lookup_write_icons img); [apply output_paths_NoDup|done].
Qed.

Lemma any_source_is_forced_square_witness :
  clean (run no_faults wide_fs)
  ∧ fs (run no_faults wide_fs).2 !! "icons/icon-72.png"
    = Some (File (Encoded "PNG" (Resized (Bitmap 300 200 "banner") 72 72 LANCZOS)))
  ∧ size (Resized (Bitmap 300 200 "banner") 72 72 LANCZOS) = (72, 72).
Proof.
  assert (decoded no_faults wide_fs (Bitmap 300 200 "banner")) as Hdec.
  { exists "PNG". split; reflexivity. }
  assert (dir_creatable no_faults wide_fs) as Hdir.
  { right. split; reflexivity. }
  assert (Forall (unhindered no_faults (Bitmap 300 200 "banner")) SIZES) as Hun.
  { apply Forall_forall. intros s Hs. split; [|split; reflexivity].
    revert s Hs. apply Forall_forall, SIZES_positive. }
  assert (∀ s, s ∈ SIZES → is_dir wide_fs (output_path s) = false) as Htargets.
  { intros s Hs. apply (list_elem_of_fmap_2 output_path) in Hs.
    rewrite output_paths in Hs.
    repeat (apply elem_of_cons in Hs as [->|Hs]; [reflexivity|]).
    by apply elem_of_nil in Hs. }
  destruct (any_source_is_forced_square no_faults wide_fs _ Hdec Hdir Hun Htargets)
    as (Hclean & _ & Hicons).
  split; [exact Hclean|].
  destruct (Hicons 72) as (icon & Hfile & -> & Hsize).
  { vm_compute. left. }
  split; [exact Hfile|exact Hsize].
Defined.

(** C8.  Once every size has been saved, the last two lines printed are the
    success message and the reminder about the manifest.  Whatever the run
    does, every file it saves is one of the icon paths, every other path
    holds what it held before, except that icons may have become a
    directory; manifest.json in particular is untouched. *)
Theorem only_icons_are_written env m :
  ((saved (trace (run env m).2)).*1.*2 = output_path <$> SIZES →
   ∃ before,
     printed (trace (run env m).2)
     = before ++ [ newline +:+ "All icons generated successfully!";
                   "Update manifest.json to reference these icons." ])
  ∧ (∀ im p fmt, (im, p, fmt) ∈ saved (trace (run env m).2) →
       p ∈ output_path <$> SIZES)
  ∧ (∀ p, p ∉ output_path <$> SIZES → p ≠ "icons" →
       fs (run env m).2 !! p = m !! p)
  ∧ (fs (run env m).2 !! "icons" = m !! "icons"
     ∨ fs (run env m).2 !! "icons" = Some Dir)
  ∧ fs (run env m).2 !! "manifest.json" = m !! "manifest.json".
Proof.
  destruct (run_summary env m)
    as (img & done & tried & Hdt & Hts & Hsaved & _ & _ & Hframe & Hdir & Hall).
  assert (∀ p, p ∉ output_path <$> SIZES → p ≠ "icons" →
            fs (run env m).2 !! p = m !! p) as Hrest.
  { intros p Hp Hne. apply Hframe; [|done].
    intros Hin. apply Hp. apply list_elem_of_fmap in Hin as [s [-> Hs]].
    apply list_elem_of_fmap_2. by apply (elem_of_prefix tried). }
  split_and!.
  - intros Hpaths.
    assert (done = SIZES) as Hdone.
    { apply (saved_all_means_done img done (output_path <$> SIZES)).
      - by transitivity tried.
      - by rewrite <- Hsaved.
      - by rewrite length_fmap. }
    rewrite (Hall Hdone). cbn [snd trace].
    exists (printed (header img ++ flat_map (step_events img) SIZES)).
    by rewrite app_assoc, printed_app.
  - intros im p fmt Hin. rewrite Hsaved in Hin.
    apply list_elem_of_fmap in Hin as [s [Heq Hs]]. simplify_eq.
    apply list_elem_of_fmap_2.
    apply (elem_of_prefix tried); [|done]. by apply (elem_of_prefix done).
  - exact Hrest.
  - exact Hdir.
  - apply Hrest; [|done]. intros Hin.
    by apply output_paths_apart in Hin as (_ & _ & ?).
Qed.

Lemma only_icons_are_written_witness :
  ∃ before,
    printed (trace (run no_faults sample_fs).2)
    = before ++ [ newline +:+ "All icons generated successfully!";
                  "Update manifest.json to reference these icons." ].
Proof.
  destruct (only_icons_are_written no_faults sample_fs) as (Hlast & _).
  apply Hlast. vm_compute. reflexivity.
Defined.

(** C9.  Whatever a run returns is [None]; and it does return, with [None],
    on each of the three paths: missing source, a failure while processing,
    and full success. *)
Theorem returns_None_on_every_path env m :
  (∀ v, (run env m).1 = Val v → v = VNone)
  ∧ (m !! source = None → (run env m).1 = Val VNone)
  ∧ (∀ ev e, ev ∈ trace (run env m).2 → processing ev = true →
       failure ev = Some e → (run env m).1 = Val VNone)
  ∧ (clean (run env m) → (run env m).1 = Val VNone).
Proof.
  split_and!.
  - intros v Hv. destruct (run_cases env m); simpl in Hv; congruence.
  - intros Hm. by rewrite (run_without_source env m Hm).
  - intros ev e Hin Hproc Hfail.
    apply list_elem_of_split in Hin as (pre & post & Htr).
    destruct (failed_run env m pre ev post e Htr Hfail) as [(-> & _)|(_ & _ & ? & _)];
      [discriminate|done].
  - intros Hclean. by destruct (clean_run env m Hclean) as (img & _ & _ & _ & ->).
Qed.

Lemma returns_None_on_every_path_witness :
  (run no_faults ∅).1 = Val VNone
  ∧ (run no_faults corrupt_fs).1 = Val VNone
  ∧ (run no_faults sample_fs).1 = Val VNone.
Proof.
  split_and!.
  - destruct (returns_None_on_every_path no_faults ∅) as (_ & Hmissing & _).
    apply Hmissing. reflexivity.
  - destruct (returns_None_on_every_path no_faults corrupt_fs) as (_ & _ & Hfailed & _).
    apply (Hfailed (EvOpen "speech-bubble.png"
                      (Exc (Exn "UnidentifiedImageError"
                              "cannot identify image file speech-bubble.png")))
             (Exn "UnidentifiedImageError"
                "cannot identify image file speech-bubble.png")).
    + vm_compute. right. right. left.
    + reflexivity.
    + reflexivity.
  - destruct (returns_None_on_every_path no_faults sample_fs) as (_ & _ & _ & Hclean).
    apply Hclean. split; vm_compute; reflexivity.
Defined.

(** C10.  The icons directory is made before the source is decoded: in every
    trace a decode is preceded by the successful [os.makedirs].  So after a
    run in which decode, resample or save failed, the directory is on disk,
    and the error was reported. *)
Theorem directory_made_before_decoding env m :
  (∀ pre r post,
     trace (run env m).2 = pre ++ EvOpen "speech-bubble.png" r :: post →
     EvMakedirs "icons" None ∈ pre)
  ∧ (∀ pre ev post e,
       trace (run env m).2 = pre ++ ev :: post →
       processing ev = true → failure ev = Some e →
       fs (run env m).2 !! "icons" = Some Dir
       ∧ post = [EvPrint ("Error generating icons: " +:+ exn_str e)]).
Proof.
  split.
  - intros pre r post Htr.
    assert (∃ rest, trace (run env m).2
                    = EvExists source true :: EvMakedirs "icons" None :: rest
            ∨ (∀ p r', EvOpen p r' ∉ trace (run env m).2)) as [rest Hshape].
    { destruct (run_cases env m) as [Hm|e Hs Hd|e Hs Hd|img e st Hdec Hd Hloop
                                    |img st Hdec Hd Hloop]; cbn [snd trace].
      - exists []. right. intros p r' Hin.
        repeat (apply elem_of_cons in Hin as [?|Hin]; [done|]).
        by apply elem_of_nil in Hin.
      - exists []. right. intros p r' Hin.
        repeat (apply elem_of_cons in Hin as [?|Hin]; [done|]).
        by apply elem_of_nil in Hin.
      - eexists. left. done.
      - inversion Hloop as [|? ? ? ? ? ? ? Htr'|? ? ? ? ? ? ? Htr']; subst;
          cbn [trace] in Htr'; rewrite Htr'; eexists; left; done.
      - inversion Hloop as [? ? Htr' ?| |]; subst;
          cbn [trace] in Htr'; rewrite Htr'; eexists; left; done. }
    destruct Hshape as [Hshape|Hnone].
    + rewrite Hshape in Htr.
      destruct pre as [|x [|y pre]]; simpl in Htr; try discriminate.
      inversion Htr; subst. right. left.
    + exfalso. apply (Hnone "speech-bubble.png" r). rewrite Htr.
      apply elem_of_app. right. left.
  - intros pre ev post e Htr Hproc Hfail.
    destruct (failed_run env m pre ev post e Htr Hfail)
      as [(-> & _)|(_ & -> & _ & _ & Hdir & _)]; [discriminate|].
    done.
Qed.

(** C10 at a corrupt source: the error is reported, the directory is there,
    and it holds no icon. *)
Lemma directory_made_before_decoding_witness :
  fs (run no_faults corrupt_fs).2 !! "icons" = Some Dir
  ∧ drop 3 (trace (run no_faults corrupt_fs).2)
    = [EvPrint "Error generating icons: cannot identify image file speech-bubble.png"]
  ∧ saved (trace (run no_faults corrupt_fs).2) = [].
Proof.
  pose (e := Exn "UnidentifiedImageError"
               "cannot identify image file speech-bubble.png").
  destruct (directory_made_before_decoding no_faults corrupt_fs) as [_ Hfailed].
  destruct (Hfailed (take 2 (trace (run no_faults corrupt_fs).2))
              (EvOpen "speech-bubble.png" (Exc e))
              (drop 3 (trace (run no_faults corrupt_fs).2)) e)
    as [Hdir Hpost].
  { vm_compute. reflexivity. }
  { reflexivity. }
  { reflexivity. }
  split_and!; [exact Hdir|exact Hpost|vm_compute; reflexivity].
Defined.

(** * Further properties of the script *)

(** ** Helper lemmas *)

(** The trace so far has no say in what [os.makedirs] does. *)
Lemma os_makedirs_result env m tr :
  (os_makedirs env "icons" true (State m tr)).1
  = (os_makedirs env "icons" true (State m [])).1.
Proof.
  unfold os_makedirs, bind, get_fs, put_fs, emit, raise; simpl.
  destruct (m !! "icons") as [[|c]|]; simpl; [done..|].
  by destruct (mkdir_fault env "icons").
Qed.

Lemma decoded_unique env m img img' :
  decoded env m img → decoded env m img' → img = img'.
Proof.
  intros [fmt [Hm _]] [fmt' [Hm' _]]. rewrite Hm in Hm'. by simplify_eq.
Qed.

(** Each path holds what it held, or the directory made, or an icon file. *)
Lemma lookup_write_icons_cases img (m : gmap string node) sizes p :
  foldl (write_icon img) m sizes !! p = m !! p
  ∨ (p ∈ output_path <$> sizes
     ∧ ∃ c, foldl (write_icon img) m sizes !! p = Some (File c)).
Proof.
  destruct (decide (p ∈ output_path <$> sizes)) as [Hin|Hout].
  - right. split; [done|]. revert m.
    induction sizes as [|s sizes IH]; intros m; [by apply elem_of_nil in Hin|].
    simpl. destruct (decide (p ∈ output_path <$> sizes)) as [Hin'|Hout'].
    + by apply IH.
    + rewrite fmap_cons in Hin. apply elem_of_cons in Hin as [->|Hin]; [|done].
      rewrite lookup_write_icons_other by done.
      unfold write_icon. rewrite lookup_insert_eq. eauto.
  - left. by apply lookup_write_icons_other.
Qed.

Lemma run_nodes env m p :
  fs (run env m).2 !! p = m !! p
  ∨ (p = "icons" ∧ fs (run env m).2 !! p = Some Dir)
  ∨ (p ∈ output_path <$> SIZES ∧ ∃ c, fs (run env m).2 !! p = Some (File c)).
Proof.
  assert (∀ img sizes, sizes ⊆ SIZES →
            foldl (write_icon img) (<["icons" := Dir]> m) sizes !! p = m !! p
            ∨ (p = "icons"
               ∧ foldl (write_icon img) (<["icons" := Dir]> m) sizes !! p = Some Dir)
            ∨ (p ∈ output_path <$> SIZES
               ∧ ∃ c, foldl (write_icon img) (<["icons" := Dir]> m) sizes !! p
                      = Some (File c))) as Hwritten.
  { intros img sizes Hsub.
    destruct (lookup_write_icons_cases img (<["icons" := Dir]> m) sizes p)
      as [Heq|[Hin Hc]].
    - rewrite Heq. destruct (decide (p = "icons")) as [->|Hne].
      + right. left. by rewrite lookup_insert_eq.
      + left. by rewrite lookup_insert_ne.
    - right. right. split; [|done].
      apply list_elem_of_fmap in Hin as [s [-> Hs]].
      apply list_elem_of_fmap_2. by apply Hsub. }
  destruct (run_cases env m) as [Hm|e Hs Hd|e Hs Hd|img e st Hdec Hd Hloop
                                |img st Hdec Hd Hloop]; cbn [snd fs].
  - by left.
  - by left.
  - apply (Hwritten (Bitmap 0 0 "") []). apply list_subseteq_nil.
  - inversion Hloop as [|done s rest e0 st' Hsz Hfs Htr'
                        |done s rest e0 st' Hsz Hfs Htr']; subst e0 st';
      cbn [fs] in *.
    + rewrite Hfs. apply Hwritten. rewrite Hsz. apply sublist_subseteq.
      by apply sublist_inserts_r.
    + assert (done ⊆ SIZES) as Hsub.
      { rewrite Hsz. apply sublist_subseteq. by apply sublist_inserts_r. }
      destruct Hfs as [->|[c ->]]; [by apply Hwritten|].
      destruct (decide (p = output_path s)) as [->|Hne].
      * right. right. rewrite lookup_insert_eq. split; [|eauto].
        apply list_elem_of_fmap_2. rewrite Hsz. apply elem_of_app. right. left.
      * rewrite lookup_insert_ne by done. by apply Hwritten.
  - inversion Hloop as [st' Hfs Htr' Hun| |]; subst st'; cbn [fs] in *.
    rewrite Hfs. by apply Hwritten.
Qed.

(** When [os.makedirs] fails the run stops there, with its exception. *)
Lemma run_makedirs_failed env m e :
  is_Some (m !! source) →
  (os_makedirs env "icons" true (State m [])).1 = Exc e →
  run env m = (Exc e, State m [EvExists source true; EvMakedirs "icons" (Some e)]).
Proof.
  intros Hsrc Hfail.
  unfold run, generate_icons, os_path_exists.
  unfold bind at 1 2 3, get_fs, emit, ret; simpl.
  rewrite bool_decide_eq_true_2 by done; simpl.
  unfold bind at 1.
  rewrite <- (os_makedirs_result env m [EvExists source true]) in Hfail.
  destruct (os_makedirs_cases env m [EvExists source true])
    as [[_ Heq]|[e' [_ Heq]]]; rewrite Heq in Hfail |- *; simpl in *; [done|].
  by simplify_eq.
Qed.

Lemma run_exception env m e :
  (run env m).1 = Exc e
  ↔ is_Some (m !! source) ∧ (os_makedirs env "icons" true (State m [])).1 = Exc e.
Proof.
  split.
  - intros Hrun.
    destruct (m !! source) as [n|] eqn:Hsrc.
    2:{ by rewrite (run_without_source env m Hsrc) in Hrun. }
    split; [eauto|].
    destruct (os_makedirs _ _ _ _) as [[[]|e'] st] eqn:Hmk; simpl.
    + exfalso.
      destruct (os_makedirs_cases env m []) as [[Hok _]|[e' [_ Heq]]].
      * destruct (run_cases env m) as [| ? ? Hd | | |]; simpl in Hrun; done.
      * rewrite Heq in Hmk. done.
    + rewrite (run_makedirs_failed env m e') in Hrun;
        [simpl in Hrun; by simplify_eq|eauto|by rewrite Hmk].
  - intros [Hsrc Hfail]. by rewrite (run_makedirs_failed env m e).
Qed.

(** A run that returned with the source present left the directory behind. *)
Lemma returned_run_has_directory env m :
  is_Some (m !! source) →
  raises (run env m).1 = false →
  fs (run env m).2 !! "icons" = Some Dir.
Proof.
  intros Hsrc Hret.
  pose proof icons_not_an_output as Hicons.
  destruct (run_cases env m) as [Hm|e Hs Hd|e Hs Hd|img e st Hdec Hd Hloop
                                |img st Hdec Hd Hloop]; cbn [fst snd fs] in *.
  - rewrite Hm in Hsrc. by destruct Hsrc.
  - done.
  - by rewrite lookup_insert_eq.
  - inversion Hloop as [|done s rest e0 st' Hsz Hfs Htr'
                        |done s rest e0 st' Hsz Hfs Htr']; subst e0 st';
      rewrite Hsz, fmap_app, fmap_cons in Hicons;
      apply not_elem_of_app in Hicons as [Hdone Hs'];
      apply not_elem_of_cons in Hs' as [Hs' _];
      cbn [fs] in Hfs.
    + rewrite Hfs, lookup_write_icons_other by done. by rewrite lookup_insert_eq.
    + destruct Hfs as [->|[c ->]]; rewrite ?lookup_insert_ne by done;
        rewrite lookup_write_icons_other by done; by rewrite lookup_insert_eq.
  - inversion Hloop as [st' Hfs Htr' Hun| |]; subst st'. cbn [fs] in Hfs.
    rewrite Hfs, lookup_write_icons_other by done. by rewrite lookup_insert_eq.
Qed.

Lemma string_length_app (s t : string) :
  String.length (s +:+ t) = (String.length s + String.length t)%nat.
Proof. induction s as [|a s IH]; simpl; [done|]. by rewrite IH. Qed.

(** A common ending can be struck from both sides. *)
Lemma string_app_inv_tail (s1 s2 t : string) :
  s1 +:+ t = s2 +:+ t → s1 = s2.
Proof.
  revert s2. induction s1 as [|a s1 IH]; intros [|b s2] Heq; [done|..].
  - apply (f_equal String.length) in Heq.
    rewrite !string_length_app in Heq. simpl in Heq. lia.
  - apply (f_equal String.length) in Heq.
    rewrite !string_length_app in Heq. simpl in Heq. lia.
  - change (String a (s1 +:+ t) = String b (s2 +:+ t)) in Heq.
    injection Heq as -> Heq. f_equal. by apply IH.
Qed.

(** ** Failure, success and what is left on disk *)

(** X1.  The run raises to its caller exactly when the source exists and
    [os.makedirs] raises, and with that same exception; the file system is
    then as it was, nothing was printed and nothing saved. *)
Theorem raises_exactly_when_makedirs_fails env m e :
  ((run env m).1 = Exc e
   ↔ is_Some (m !! "speech-bubble.png")
     ∧ (os_makedirs env "icons" true (State m [])).1 = Exc e)
  ∧ ((run env m).1 = Exc e →
     fs (run env m).2 = m
     ∧ printed (trace (run env m).2) = []
     ∧ saved (trace (run env m).2) = []).
Proof.
  split; [apply run_exception|].
  intros Hrun. apply run_exception in Hrun as [Hsrc Hfail].
  by rewrite (run_makedirs_failed env m e).
Qed.

Lemma raises_exactly_when_makedirs_fails_witness :
  (run no_faults blocked_fs).1 = Exc (Exn "FileExistsError" "File exists: icons")
  ∧ fs (run no_faults blocked_fs).2 = blocked_fs.
Proof.
  destruct (raises_exactly_when_makedirs_fails no_faults blocked_fs
              (Exn "FileExistsError" "File exists: icons")) as [Hiff Hstate].
  assert ((run no_faults blocked_fs).1
          = Exc (Exn "FileExistsError" "File exists: icons")) as Hrun.
  { apply Hiff. split; [by eexists|]. vm_compute. reflexivity. }
  split; [exact Hrun|]. by destruct (Hstate Hrun) as [? _].
Defined.

(** X2.  The three signs of success agree: the run reports no error, exactly
    when the success message is among the lines printed, exactly when all
    eight icon paths were saved. *)
Theorem success_verdicts_agree env m :
  (clean (run env m)
   ↔ (newline +:+ "All icons generated successfully!")
       ∈ printed (trace (run env m).2))
  ∧ (clean (run env m)
     ↔ (saved (trace (run env m).2)).*1.*2 = output_path <$> SIZES).
Proof.
  assert (clean (run env m) →
          (newline +:+ "All icons generated successfully!")
            ∈ printed (trace (run env m).2)
          ∧ (saved (trace (run env m).2)).*1.*2 = output_path <$> SIZES) as Hclean.
  { intros Hc. destruct (clean_run env m Hc) as (img & _ & _ & _ & ->).
    cbn [snd trace]. split.
    - rewrite !printed_app. apply elem_of_app. right. apply elem_of_app. right. left.
    - rewrite !saved_app, saved_steps. simpl. rewrite app_nil_r.
      by rewrite <- !list_fmap_compose. }
  split; (split; [intros Hc; by destruct (Hclean Hc)|]).
  - intros Hin.
    destruct (run_cases env m) as [Hm|e Hs Hd|e Hs Hd|img e st Hdec Hd Hloop
                                  |img st Hdec Hd Hloop]; cbn [snd trace] in Hin.
    + simpl in Hin.
      repeat (apply elem_of_cons in Hin as [Heq|Hin]; [discriminate Heq|]).
      by apply elem_of_nil in Hin.
    + by apply elem_of_nil in Hin.
    + simpl in Hin.
      repeat (apply elem_of_cons in Hin as [Heq|Hin]; [discriminate Heq|]).
      by apply elem_of_nil in Hin.
    + exfalso.
      assert (∀ done tail,
                (∀ l, l ∈ printed tail → is_error_line l = true) →
                (newline +:+ "All icons generated successfully!")
                  ∉ printed (header img ++ flat_map (step_events img) done ++ tail))
        as Hno.
      { intros done tail Htail. rewrite !printed_app, printed_steps.
        intros Hl. apply elem_of_app in Hl as [Hl|Hl].
        { simpl in Hl.
          repeat (apply elem_of_cons in Hl as [Heq|Hl]; [discriminate Heq|]).
          by apply elem_of_nil in Hl. }
        apply elem_of_app in Hl as [Hl|Hl].
        { apply list_elem_of_fmap in Hl as [s [Heq _]]. discriminate Heq. }
        apply Htail in Hl. discriminate Hl. }
      inversion Hloop as [|done s rest e0 st' Hsz Hfs Htr'
                          |done s rest e0 st' Hsz Hfs Htr']; subst e0 st';
        cbn [trace] in Htr'; rewrite Htr', <- !app_assoc in Hin;
        revert Hin; apply Hno; intros l Hl; simpl in Hl;
        apply list_elem_of_singleton in Hl as ->; reflexivity.
    + inversion Hloop as [st' Hfs Htr' Hun| |]; subst st'; cbn [fs trace] in *.
      rewrite Htr', <- app_assoc. apply success_shape_clean.
  - intros Hpaths.
    destruct (run_summary env m)
      as (img & done & tried & Hdt & Hts & Hsaved & _ & _ & _ & _ & Hall).
    rewrite Hall; [apply success_shape_clean|].
    apply (saved_all_means_done img done (output_path <$> SIZES)).
    + by transitivity tried.
    + by rewrite <- Hsaved.
    + by rewrite length_fmap.
Qed.

(** X3.  No run removes anything: a path that held a node before the run
    holds one after it, and the source file is left as it was, also when the
    run fails or a damaged icon is left behind. *)
Theorem nothing_is_removed env m :
  (∀ p, is_Some (m !! p) → is_Some (fs (run env m).2 !! p))
  ∧ fs (run env m).2 !! "speech-bubble.png" = m !! "speech-bubble.png".
Proof.
  split.
  - intros p Hp.
    destruct (run_nodes env m p) as [->|[[_ ->]|[_ [c ->]]]]; eauto.
  - destruct (run_nodes env m "speech-bubble.png") as [Heq|[[Hne _]|[Hin _]]].
    + done.
    + discriminate Hne.
    + by apply output_paths_apart in Hin as (_ & ? & _).
Qed.

Lemma nothing_is_removed_witness :
  is_Some (fs (run disk_full blocked_fs).2 !! "icons")
  ∧ is_Some (fs (run disk_full sample_fs).2 !! "speech-bubble.png").
Proof.
  split.
  - destruct (nothing_is_removed disk_full blocked_fs) as [Hkept _].
    apply Hkept. vm_compute. eauto.
  - destruct (nothing_is_removed disk_full sample_fs) as [Hkept _].
    apply Hkept. vm_compute. eauto.
Defined.

(** X4.  A source that exists but cannot be decoded (a directory, bytes that
    are no image, a file that cannot be read) passes the existence check: the
    directory is made, the decode error is reported, no icon is written and
    the run returns. *)
Theorem undecodable_source_writes_no_icon env m :
  is_Some (m !! "speech-bubble.png") →
  dir_creatable env m →
  (∀ img, ¬ decoded env m img) →
  ∃ e,
    run env m
    = (Val VNone,
       State (<["icons" := Dir]> m)
         [ EvExists "speech-bubble.png" true;
           EvMakedirs "icons" None;
           EvOpen "speech-bubble.png" (Exc e);
           EvPrint ("Error generating icons: " +:+ exn_str e) ]).
Proof.
  intros Hsrc Hdir Hno.
  destruct (run_cases env m) as [Hm|e Hs Hd|e Hs Hd|img e st Hdec Hd Hloop
                                |img st Hdec Hd Hloop].
  - unfold source in Hm. rewrite Hm in Hsrc. by destruct Hsrc.
  - done.
  - by exists e.
  - by destruct (Hno img).
  - by destruct (Hno img).
Qed.

Lemma undecodable_source_writes_no_icon_witness :
  ∃ e,
    run no_faults dir_source_fs
    = (Val VNone,
       State (<["icons" := Dir]> dir_source_fs)
         [ EvExists "speech-bubble.png" true;
           EvMakedirs "icons" None;
           EvOpen "speech-bubble.png" (Exc e);
           EvPrint ("Error generating icons: " +:+ exn_str e) ]).
Proof.
  apply (undecodable_source_writes_no_icon no_faults dir_source_fs).
  - by eexists.
  - right. split; reflexivity.
  - intros img [fmt [Hm _]]. vm_compute in Hm. discriminate Hm.
Defined.

(** X5.  Once the source is decoded, its dimensions are the first thing
    printed, right after the decode and before any resampling. *)
Theorem source_dimensions_reported_first env m img :
  decoded env m img →
  dir_creatable env m →
  ∃ rest,
    trace (run env m).2
    = [ EvExists "speech-bubble.png" true;
        EvMakedirs "icons" None;
        EvOpen "speech-bubble.png" (Val img);
        EvPrint ("Source image: " +:+ str (size img).1 +:+ "x" +:+ str (size img).2) ]
      ++ rest
    ∧ head (printed (trace (run env m).2))
      = Some ("Source image: " +:+ str (size img).1 +:+ "x" +:+ str (size img).2).
Proof.
  intros Hdec Hdir. rewrite (run_decoded env m img) by done.
  pose proof (for_each_shape env img SIZES
                (State (<["icons" := Dir]> m) (header img))) as Hloop.
  destruct (for_each SIZES (icon_step env img) _) as [[[]|e] st];
    inversion Hloop as [st' Hfs Htr' Hun
                       |saved_sizes s rest e0 st' Hsz Hfs Htr'
                       |saved_sizes s rest e0 st' Hsz Hfs Htr']; subst;
    cbn [snd trace] in *; rewrite Htr', <- !app_assoc;
    (eexists; split; [reflexivity|reflexivity]).
Qed.

Lemma source_dimensions_reported_first_witness :
  head (printed (trace (run disk_full wide_fs).2)) = Some "Source image: 300x200".
Proof.
  destruct (source_dimensions_reported_first disk_full wide_fs (Bitmap 300 200 "banner"))
    as (rest & _ & Hhead).
  - exists "PNG". split; reflexivity.
  - right. split; reflexivity.
  - exact Hhead.
Defined.



(** X7.  The naming of the icons is injective: two different sizes, whatever
    they are, never share an output path. *)
Theorem output_path_injective (a b : Z) :
  "icons/icon-" +:+ str a +:+ ".png" = "icons/icon-" +:+ str b +:+ ".png" →
  a = b.
Proof.
  intros Heq. apply (inj (String.app "icons/icon-")) in Heq.
  apply string_app_inv_tail in Heq. by apply (inj pretty) in Heq.
Qed.

Lemma output_path_injective_witness :
  output_path 72 = output_path (8 * 9) ∧ 72 = 8 * 9.
Proof.
  split; [reflexivity|].
  apply (output_path_injective 72 (8 * 9)). reflexivity.
Defined.

(** X8.  What a failed run leaves behind never stands in the way of the next
    one: if the first run returned, a later run whose environment lets every
    step through completes without error and puts all eight icons on disk. *)
Theorem rerun_after_failure_completes env env' m img :
  decoded env' m img →
  raises (run env m).1 = false →
  (∀ s, s ∈ SIZES → is_dir m (output_path s) = false) →
  Forall (unhindered env' img) SIZES →
  clean (run env' (fs (run env m).2))
  ∧ ∀ s, s ∈ SIZES →
      fs (run env' (fs (run env m).2)).2 !! ("icons/icon-" +:+ str s +:+ ".png")
      = Some (File (Encoded "PNG" (Resized img s s LANCZOS))).
Proof.
  intros Hdec Hret Htargets Hun.
  assert (is_Some (m !! source)) as Hsrc by (destruct Hdec as [? [-> _]]; eauto).
  set (m1 := fs (run env m).2).
  assert (m1 !! "icons" = Some Dir) as Hicons
    by by apply returned_run_has_directory.
  assert (decoded env' m1 img) as Hdec1.
  { destruct Hdec as [fmt [Hm Hf]]. exists fmt. split; [|done].
    destruct (run_nodes env m source) as [Heq|[[Hne _]|[Hin _]]].
    - unfold m1. by rewrite Heq.
    - discriminate Hne.
    - by apply output_paths_apart in Hin as (_ & ? & _). }
  assert (∀ s, s ∈ SIZES → is_dir m1 (output_path s) = false) as Htargets1.
  { intros s Hs. unfold is_dir, m1.
    destruct (run_nodes env m (output_path s)) as [Heq|[[Hne _]|[_ [c Hc]]]].
    - rewrite Heq. by apply Htargets.
    - exfalso. apply icons_not_an_output. rewrite <- Hne.
      by apply list_elem_of_fmap_2.
    - by rewrite Hc. }
  rewrite (run_ok env' m1 img); [|done|left; unfold is_dir; by rewrite Hicons|done..].
  split; [apply success_shape_clean|].
  intros s Hs. cbn [snd fs].
  apply (lookup_write_icons img); [apply output_paths_NoDup|done].
Qed.

Lemma rerun_after_failure_completes_witness :
  raises (run disk_full sample_fs).1 = false
  ∧ fs (run disk_full sample_fs).2 !! "icons/icon-128.png" = None
  ∧ clean (run no_faults (fs (run disk_full sample_fs).2))
  ∧ fs (run no_faults (fs (run disk_full sample_fs).2)).2 !! "icons/icon-128.png"
    = Some (File (Encoded "PNG" (Resized (Bitmap 1024 1024 "bubble") 128 128 LANCZOS))).
Proof.
  assert (decoded no_faults sample_fs (Bitmap 1024 1024 "bubble")) as Hdec.
  { exists "PNG". split; reflexivity. }
  assert (raises (run disk_full sample_fs).1 = false) as Hret.
  { vm_compute. reflexivity. }
  assert (∀ s, s ∈ SIZES → is_dir sample_fs (output_path s) = false) as Htargets.
  { intros s Hs. apply (list_elem_of_fmap_2 output_path) in Hs.
    rewrite output_paths in Hs.
    repeat (apply elem_of_cons in Hs as [->|Hs]; [reflexivity|]).
    by apply elem_of_nil in Hs. }
  assert (Forall (unhindered no_faults (Bitmap 1024 1024 "bubble")) SIZES) as Hun.
  { apply Forall_forall. intros s Hs. split; [|split; reflexivity].
    revert s Hs. apply Forall_forall, SIZES_positive. }
  destruct (rerun_after_failure_completes disk_full no_faults sample_fs _
              Hdec Hret Htargets Hun) as [Hclean Hicons].
  split_and!; [exact Hret|vm_compute; reflexivity|exact Hclean|].
  apply (Hicons 128). vm_compute. right. right. left.
Defined.
